(** * Salary / equity trade-off calculator (salary.py)

    A shallow embedding of [compute_salary_equity_tradeoff] and of the
    module-level driver loop of [salary.py].

    Numbers.  The Python code computes on [int] and [float] values.  The
    embedding interprets both over the exact rationals [Q] (and [Z] for the
    values the code keeps integral: share counts, step indices, years), so
    every arithmetic operation below is the exact one; binary64 rounding
    error, overflow, infinities and NaN are outside the model.  Equality of
    rational results is therefore stated with [==] ([Qeq]).

    Errors.  Python's true division [/] raises [ZeroDivisionError] on a zero
    divisor; the embedding threads this through a small error monad. *)

From Stdlib Require Import String DecimalString.
From Stdlib Require Import ZArith QArith Qround Lqa Lia List Bool.
Import ListNotations.

Local Open Scope Q_scope.

(** ** The error monad *)

Inductive exn : Type :=
| ZeroDivisionError.

Inductive result (A : Type) : Type :=
| Ok (a : A)
| Raise (e : exn).

Arguments Ok {A} a.
Arguments Raise {A} e.

Definition bind {A B : Type} (m : result A) (k : A -> result B) : result B :=
  match m with
  | Ok a => k a
  | Raise e => Raise e
  end.

Notation "x <- m ;; k" := (bind m (fun x => k))
  (at level 61, m at next level, right associativity).

(** ** Python primitives used by the source *)

(** [x / y] on Python numbers: true division, raising on a zero divisor. *)
Definition py_truediv (x y : Q) : result Q :=
  if Qeq_bool y 0 then Raise ZeroDivisionError else Ok (x / y).

(** [round(x)] with one argument: the nearest integer, ties going to the
    even neighbour. *)
Definition py_round (x : Q) : Z :=
  let f := Qfloor x in
  match Qcompare (x - inject_Z f) (1 # 2) with
  | Lt => f
  | Gt => (f + 1)%Z
  | Eq => if Z.even f then f else (f + 1)%Z
  end.

(** [range(n)]: the indices 0, 1, ..., n-1; empty when [n <= 0]. *)
Definition range (n : Z) : list Z :=
  map Z.of_nat (seq 0 (Z.to_nat n)).

(** [np.arange(start, stop, step)] on integers with a positive step:
    ceil((stop - start) / step) values start, start + step, ... *)
Definition arange (start stop step : Z) : list Z :=
  let len := Z.to_nat (- ((start - stop) / step)) in
  map (fun k => (start + Z.of_nat k * step)%Z) (seq 0 len).

(** ** Data model *)

(** One dictionary appended to [results]: a row of the returned table. *)
Record Row : Type := mkRow {
  Salary : Q;
  N_qeso : Z;
  perc_qeso : Q
}.

(** The keyword arguments of [compute_salary_equity_tradeoff]. *)
Record Configuration : Type := mkConfiguration {
  base_salary : Q;
  base_shares : Z;
  base_percentage : Q;
  share_price : Q;
  salary_increment : Q;
  steps : Z;
  vesting_years : Z
}.

(** The default values of the keyword arguments. *)
Definition default_configuration : Configuration :=
  {| base_salary := 42000;
     base_shares := 3142;
     base_percentage := 8 # 10;
     share_price := 220;
     salary_increment := 1000;
     steps := 7;
     vesting_years := 4 |}.

(** A call that overrides only [share_price]. *)
Definition with_share_price (c : Configuration) (p : Q) : Configuration :=
  {| base_salary := base_salary c;
     base_shares := base_shares c;
     base_percentage := base_percentage c;
     share_price := p;
     salary_increment := salary_increment c;
     steps := steps c;
     vesting_years := vesting_years c |}.

(** ** compute_salary_equity_tradeoff *)

(** The body of [for i in range(steps)], lines 44-57, returning the
    dictionary that line 60 appends.  [base_equity_value] and
    [total_shares] are the two values computed before the loop. *)
Definition loop_body (base_salary_ share_price_ salary_increment_ : Q)
  (vesting_years_ : Z) (base_equity_value total_shares : Q) (i : Z)
  : result Row :=
  let salary := base_salary_ + inject_Z i * salary_increment_ in
  let extra_salary_total :=
    inject_Z i * salary_increment_ * 12 * inject_Z vesting_years_ in
  let equity_value := base_equity_value - extra_salary_total in
  q <- py_truediv equity_value share_price_ ;;
  let n_qeso := py_round q in
  perc <- py_truediv (inject_Z n_qeso) total_shares ;;
  Ok {| Salary := salary; N_qeso := n_qeso; perc_qeso := perc |}.

(** The [for] loop: each index runs the body and appends its row to
    [results]; an exception leaves the loop at once. *)
Fixpoint for_range (body : Z -> result Row) (indices : list Z)
  (results : list Row) : result (list Row) :=
  match indices with
  | [] => Ok results
  | i :: rest =>
      r <- body i ;;
      for_range body rest (results ++ [r])
  end.

Definition compute_salary_equity_tradeoff
  (base_salary_ : Q) (base_shares_ : Z) (base_percentage_ : Q)
  (share_price_ : Q) (salary_increment_ : Q) (steps_ : Z)
  (vesting_years_ : Z) : result (list Row) :=
  let base_equity_value := inject_Z base_shares_ * share_price_ in
  total_shares <- py_truediv (inject_Z base_shares_) base_percentage_ ;;
  for_range
    (loop_body base_salary_ share_price_ salary_increment_ vesting_years_
       base_equity_value total_shares)
    (range steps_) [].

(** The calculator applied to a configuration record. *)
Definition TradeoffCalculator (c : Configuration) : result (list Row) :=
  compute_salary_equity_tradeoff
    (base_salary c) (base_shares c) (base_percentage c) (share_price c)
    (salary_increment c) (steps c) (vesting_years c).

(** ** The formulas of the specification

    A second, specification-side description of one row: the formulas of the
    per-row computation written with the total division of [Q], to be
    compared with what the code computes. *)

Definition spec_quotient (c : Configuration) (i : Z) : Q :=
  (inject_Z (base_shares c) * share_price c
   - inject_Z i * salary_increment c * 12 * inject_Z (vesting_years c))
  / share_price c.

Definition spec_row (c : Configuration) (i : Z) : Row :=
  let n := py_round (spec_quotient c i) in
  {| Salary := base_salary c + inject_Z i * salary_increment c;
     N_qeso := n;
     perc_qeso :=
       inject_Z n / (inject_Z (base_shares c) / base_percentage c) |}.

(** The base row: the offer the configuration starts from. *)
Definition is_base_row (c : Configuration) (r : Row) : Prop :=
  Salary r == base_salary c /\
  N_qeso r = base_shares c /\
  perc_qeso r == base_percentage c.

(** The possible outcomes of a call, by the three divisors: a table of
    [spec_row]s, or the exception of one of the divisions. *)
Inductive outcome (c : Configuration) : result (list Row) -> Prop :=
| outcome_table :
    ~ base_percentage c == 0 ->
    ((steps c <= 0)%Z \/ (~ share_price c == 0 /\ base_shares c <> 0%Z)) ->
    outcome c (Ok (map (spec_row c) (range (steps c))))
| outcome_raise :
    (base_percentage c == 0 \/
     ((0 < steps c)%Z /\ (share_price c == 0 \/ base_shares c = 0%Z))) ->
    outcome c (Raise ZeroDivisionError).

(** ** Equal values, whatever their representation

    Two Python numbers are the same value when they are [==] as rationals;
    configurations, rows, tables and outcomes are compared field by field. *)

Definition Configuration_eq (c1 c2 : Configuration) : Prop :=
  base_salary c1 == base_salary c2 /\
  base_shares c1 = base_shares c2 /\
  base_percentage c1 == base_percentage c2 /\
  share_price c1 == share_price c2 /\
  salary_increment c1 == salary_increment c2 /\
  steps c1 = steps c2 /\
  vesting_years c1 = vesting_years c2.

Definition Row_eq (r1 r2 : Row) : Prop :=
  Salary r1 == Salary r2 /\
  N_qeso r1 = N_qeso r2 /\
  perc_qeso r1 == perc_qeso r2.

Definition result_eq {A : Type} (R : A -> A -> Prop) (m1 m2 : result A)
  : Prop :=
  match m1, m2 with
  | Ok a1, Ok a2 => R a1 a2
  | Raise e1, Raise e2 => e1 = e2
  | _, _ => False
  end.

Definition ResultTable_eq (m1 m2 : result (list Row)) : Prop :=
  result_eq (Forall2 Row_eq) m1 m2.

(** The [Salary] column of an outcome. *)
Definition salary_column (m : result (list Row)) : result (list Q) :=
  rows <- m ;; Ok (map Salary rows).

(** [d] is [x] to four decimal places. *)
Definition approx4 (x d : Q) : Prop :=
  d - (5 # 100000) <= x /\ x <= d + (5 # 100000).

(** ** The driver loop (lines 72-76)

    The run of the module is recorded as the sequence of its effects: the
    texts handed to [print], the tables printed through
    [df.to_string(index=False)] (kept as tables, their text layout is
    pandas' and is not modelled), and the calls made to the calculator. *)

Inductive event : Type :=
| Print (s : string)
| PrintTable (df : list Row)
| Call (c : Configuration).

Definition newline : string := String (Ascii.ascii_of_nat 10) EmptyString.

(** The f-string of line 73. *)
Definition header (share_price_ : Z) : string :=
  ("Share price: " ++ NilZero.string_of_int (Z.to_int share_price_)
   ++ " SEK")%string.

(** The configuration of the call of line 74. *)
Definition scenario (share_price_ : Z) : Configuration :=
  with_share_price default_configuration (inject_Z share_price_).

(** The loop over the prices, threading the trace; an exception raised by
    the call ends the run. *)
Fixpoint driver_loop (prices : list Z) (trace : list event)
  : list event * option exn :=
  match prices with
  | [] => (trace, None)
  | share_price_ :: rest =>
      let trace1 :=
        trace ++ [Print (header share_price_); Call (scenario share_price_)] in
      match TradeoffCalculator (scenario share_price_) with
      | Raise e => (trace1, Some e)
      | Ok df => driver_loop rest (trace1 ++ [PrintTable df; Print newline])
      end
  end.

Definition driver : list event * option exn :=
  driver_loop (arange 180 260 10) [].

(** What one scenario is specified to contribute to the trace. *)
Definition spec_scenario_events (share_price_ : Z) : list event :=
  [ Print (header share_price_);
    Call (scenario share_price_);
    PrintTable
      (map (spec_row (scenario share_price_))
         (range (steps (scenario share_price_))));
    Print newline ].

(** The calls recorded in a trace, in order. *)
Fixpoint calls (trace : list event) : list Configuration :=
  match trace with
  | [] => []
  | Call c :: rest => c :: calls rest
  | _ :: rest => calls rest
  end.

(** Row [i] of an outcome, when the call returned a table that has one. *)
Definition row_at (m : result (list Row)) (i : nat) : option Row :=
  match m with
  | Ok rows => nth_error rows i
  | Raise _ => None
  end.

(** Configurations used as concrete inputs below. *)

(** The defaults, with an offer of no shares. *)
Definition no_shares_configuration : Configuration :=
  {| base_salary := 42000;
     base_shares := 0;
     base_percentage := 8 # 10;
     share_price := 220;
     salary_increment := 1000;
     steps := 7;
     vesting_years := 4 |}.

(** The defaults, with a negative vesting period. *)
Definition negative_vesting_configuration : Configuration :=
  {| base_salary := 42000;
     base_shares := 3142;
     base_percentage := 8 # 10;
     share_price := 220;
     salary_increment := 1000;
     steps := 7;
     vesting_years := -1 |}.

(** An offer of no shares, a single step. *)
Definition no_shares_single_step : Configuration :=
  {| base_salary := 42000;
     base_shares := 0;
     base_percentage := 8 # 10;
     share_price := 220;
     salary_increment := 1000;
     steps := 1;
     vesting_years := 4 |}.

(** [n] shares at price 96, one increment of 1 over 4 years: row 1 has the
    quotient (96 n - 48) / 96 = n - 1/2. *)
Definition half_way_configuration (n : Z) : Configuration :=
  {| base_salary := 42000;
     base_shares := n;
     base_percentage := 8 # 10;
     share_price := 96;
     salary_increment := 1;
     steps := 2;
     vesting_years := 4 |}.

(** The defaults with 0.8 written as 4/5, a single step, no increment. *)
Definition flat_configuration : Configuration :=
  {| base_salary := 42000;
     base_shares := 3142;
     base_percentage := 4 # 5;
     share_price := 220;
     salary_increment := 0;
     steps := 1;
     vesting_years := 4 |}.

(** The defaults, their rationals written as unreduced fractions. *)
Definition default_configuration_unreduced : Configuration :=
  {| base_salary := 84000 # 2;
     base_shares := 3142;
     base_percentage := 4 # 5;
     share_price := 440 # 2;
     salary_increment := 3000 # 3;
     steps := 7;
     vesting_years := 4 |}.

(** ** Definitions for the further properties *)

(** A call that overrides only [steps]. *)
Definition with_steps (c : Configuration) (n : Z) : Configuration :=
  {| base_salary := base_salary c;
     base_shares := base_shares c;
     base_percentage := base_percentage c;
     share_price := share_price c;
     salary_increment := salary_increment c;
     steps := n;
     vesting_years := vesting_years c |}.

(** The same offer in another currency unit: the three money amounts
    multiplied by [k]. *)
Definition scale_currency (k : Q) (c : Configuration) : Configuration :=
  {| base_salary := k * base_salary c;
     base_shares := base_shares c;
     base_percentage := base_percentage c;
     share_price := k * share_price c;
     salary_increment := k * salary_increment c;
     steps := steps c;
     vesting_years := vesting_years c |}.

(** Rows that differ only by the currency factor [k] of their Salary. *)
Definition same_up_to_currency (k : Q) (r r' : Row) : Prop :=
  Salary r' == k * Salary r /\
  N_qeso r' = N_qeso r /\
  perc_qeso r' == perc_qeso r.

(** [extra_salary_total] of line 48 at step [i]. *)
Definition extra_salary_total (c : Configuration) (i : Z) : Q :=
  inject_Z i * salary_increment c * 12 * inject_Z (vesting_years c).

(** No steps, a zero share price and no shares. *)
Definition idle_configuration : Configuration :=
  {| base_salary := 42000;
     base_shares := 0;
     base_percentage := 8 # 10;
     share_price := 0;
     salary_increment := 1000;
     steps := 0;
     vesting_years := 4 |}.

(** ** Facts about the primitives *)

Lemma py_truediv_ok (x y : Q) : ~ y == 0 -> py_truediv x y = Ok (x / y).
Proof.
  intros Hy. unfold py_truediv.
  destruct (Qeq_bool y 0) eqn:E; [ | reflexivity ].
  apply Qeq_bool_iff in E. contradiction.
Qed.

Lemma py_truediv_raise (x y : Q) :
  y == 0 -> py_truediv x y = Raise ZeroDivisionError.
Proof.
  intros Hy. unfold py_truediv.
  apply Qeq_bool_iff in Hy. now rewrite Hy.
Qed.

Lemma Qdiv_nonzero (x y : Q) : ~ x == 0 -> ~ y == 0 -> ~ x / y == 0.
Proof.
  intros Hx Hy H. apply Hx.
  assert (E : x == (x / y) * y) by (field; exact Hy).
  rewrite E, H. ring.
Qed.

Lemma inject_Z_nonzero (n : Z) : n <> 0%Z -> ~ inject_Z n == 0.
Proof.
  intros Hn H. apply Hn.
  unfold Qeq in H. simpl in H. lia.
Qed.

(** *** Rounding *)

Lemma py_round_cases (x : Q) :
  let f := Qfloor x in
  (x - inject_Z f < 1 # 2 /\ py_round x = f) \/
  (1 # 2 < x - inject_Z f /\ py_round x = (f + 1)%Z) \/
  (x - inject_Z f == 1 # 2 /\
   py_round x = if Z.even f then f else (f + 1)%Z).
Proof.
  intros f. unfold py_round. fold f.
  destruct (Qcompare (x - inject_Z f) (1 # 2)) eqn:E.
  - right; right. split; [ now apply Qeq_alt | reflexivity ].
  - left. split; [ now apply Qlt_alt | reflexivity ].
  - right; left. split; [ now apply Qgt_alt | reflexivity ].
Qed.

Lemma py_round_comp (x y : Q) : x == y -> py_round x = py_round y.
Proof.
  intros H. unfold py_round.
  rewrite (Qfloor_comp _ _ H).
  assert (E : x - inject_Z (Qfloor y) == y - inject_Z (Qfloor y))
    by (rewrite H; reflexivity).
  now rewrite (Qcompare_comp _ _ E _ _ (Qeq_refl (1 # 2))).
Qed.

Lemma py_round_inject_Z (n : Z) : py_round (inject_Z n) = n.
Proof.
  destruct (py_round_cases (inject_Z n)) as [[_ H] | [[H _] | [H _]]];
    rewrite Qfloor_Z in *; [ exact H | lra | lra ].
Qed.

Lemma py_round_floor_bounds (x : Q) :
  (Qfloor x <= py_round x <= Qfloor x + 1)%Z.
Proof.
  destruct (py_round_cases x) as [[_ H] | [[_ H] | [_ H]]]; rewrite H;
    try destruct (Z.even (Qfloor x)); lia.
Qed.

Lemma py_round_mono (x y : Q) : x <= y -> (py_round x <= py_round y)%Z.
Proof.
  intros Hxy.
  pose proof (Qfloor_resp_le _ _ Hxy) as Hf.
  destruct (Z.eq_dec (Qfloor x) (Qfloor y)) as [E | N].
  - destruct (py_round_cases x) as [[Hx Rx] | [[Hx Rx] | [Hx Rx]]];
      destruct (py_round_cases y) as [[Hy Ry] | [[Hy Ry] | [Hy Ry]]];
      rewrite Rx, Ry; rewrite <- ?E in *;
      try destruct (Z.even (Qfloor x)); try lia; lra.
  - pose proof (py_round_floor_bounds x).
    pose proof (py_round_floor_bounds y). lia.
Qed.

(** Half-way values go to the even neighbour. *)
Lemma py_round_half (k : Z) (x : Q) :
  x == inject_Z k + (1 # 2) ->
  py_round x = if Z.even k then k else (k + 1)%Z.
Proof.
  intros Hx.
  assert (Hf : Qfloor x = k).
  { pose proof (Qfloor_le x) as Hl.
    pose proof (Qlt_floor x) as Hu.
    assert (H1 : inject_Z (Qfloor x) < inject_Z (k + 1)).
    { rewrite inject_Z_plus. change (inject_Z 1) with 1. lra. }
    assert (H2 : inject_Z k < inject_Z (Qfloor x + 1)) by lra.
    rewrite <- Zlt_Qlt in H1, H2. lia. }
  destruct (py_round_cases x) as [[H _] | [[H _] | [_ H]]];
    rewrite Hf in *; [ lra | lra | exact H ].
Qed.

(** ** Facts about the loop *)

Lemma range_length (n : Z) : length (range n) = Z.to_nat n.
Proof. unfold range. now rewrite length_map, length_seq. Qed.

Lemma range_nonpos (n : Z) : (n <= 0)%Z -> range n = [].
Proof.
  intros H. unfold range.
  replace (Z.to_nat n) with 0%nat by lia. reflexivity.
Qed.

Lemma range_pos (n : Z) : (0 < n)%Z -> exists rest, range n = 0%Z :: rest.
Proof.
  intros H. unfold range.
  destruct (Z.to_nat n) as [ | m] eqn:E; [ lia | ].
  simpl. eexists. reflexivity.
Qed.

Lemma range_nth_error (n : Z) (k : nat) :
  (k < Z.to_nat n)%nat -> nth_error (range n) k = Some (Z.of_nat k).
Proof.
  intros H. unfold range.
  rewrite nth_error_map, nth_error_seq.
  destruct (Nat.ltb_spec k (Z.to_nat n)); [ reflexivity | lia ].
Qed.

Lemma for_range_ok (body : Z -> result Row) (f : Z -> Row)
  (indices : list Z) :
  (forall i, In i indices -> body i = Ok (f i)) ->
  forall results,
    for_range body indices results = Ok (results ++ map f indices).
Proof.
  induction indices as [ | i rest IH]; intros Hbody results; simpl.
  - now rewrite app_nil_r.
  - rewrite (Hbody i (or_introl eq_refl)). simpl.
    rewrite IH by (intros j Hj; apply Hbody; now right).
    now rewrite <- app_assoc.
Qed.

Lemma for_range_raise (body : Z -> result Row) (e : exn) (i : Z)
  (rest : list Z) (results : list Row) :
  body i = Raise e -> for_range body (i :: rest) results = Raise e.
Proof. intros H. simpl. now rewrite H. Qed.

(** ** What the calculator returns *)

Section Calculator.

Variable c : Configuration.

Lemma loop_body_ok (i : Z) :
  ~ share_price c == 0 ->
  ~ inject_Z (base_shares c) / base_percentage c == 0 ->
  loop_body (base_salary c) (share_price c) (salary_increment c)
    (vesting_years c) (inject_Z (base_shares c) * share_price c)
    (inject_Z (base_shares c) / base_percentage c) i
  = Ok (spec_row c i).
Proof.
  intros Hp Ht. unfold loop_body.
  rewrite (py_truediv_ok _ _ Hp). simpl.
  rewrite (py_truediv_ok _ _ Ht). reflexivity.
Qed.

Lemma loop_body_raise_price (i : Z) (t : Q) :
  share_price c == 0 ->
  loop_body (base_salary c) (share_price c) (salary_increment c)
    (vesting_years c) (inject_Z (base_shares c) * share_price c) t i
  = Raise ZeroDivisionError.
Proof.
  intros Hp. unfold loop_body.
  rewrite (py_truediv_raise _ _ Hp). reflexivity.
Qed.

Lemma loop_body_raise_total (i : Z) (t : Q) :
  ~ share_price c == 0 -> t == 0 ->
  loop_body (base_salary c) (share_price c) (salary_increment c)
    (vesting_years c) (inject_Z (base_shares c) * share_price c) t i
  = Raise ZeroDivisionError.
Proof.
  intros Hp Ht. unfold loop_body.
  rewrite (py_truediv_ok _ _ Hp). simpl.
  rewrite (py_truediv_raise _ _ Ht). reflexivity.
Qed.

Lemma total_shares_zero_iff :
  ~ base_percentage c == 0 ->
  (inject_Z (base_shares c) / base_percentage c == 0
   <-> base_shares c = 0%Z).
Proof.
  intros Hb. split.
  - intros H. destruct (Z.eq_dec (base_shares c) 0) as [E | N]; [ exact E | ].
    exfalso. revert H. apply Qdiv_nonzero; [ | exact Hb ].
    now apply inject_Z_nonzero.
  - intros ->. unfold Qdiv. change (inject_Z 0) with 0. ring.
Qed.

(** All three divisors non-zero: the loop runs to its end. *)
Lemma TradeoffCalculator_ok :
  ~ share_price c == 0 -> ~ base_percentage c == 0 ->
  base_shares c <> 0%Z ->
  TradeoffCalculator c = Ok (map (spec_row c) (range (steps c))).
Proof.
  intros Hp Hb Hs.
  unfold TradeoffCalculator, compute_salary_equity_tradeoff.
  rewrite (py_truediv_ok _ _ Hb). simpl.
  rewrite (for_range_ok _ (spec_row c)); [ reflexivity | ].
  intros i _. apply loop_body_ok; [ exact Hp | ].
  rewrite total_shares_zero_iff by exact Hb. exact Hs.
Qed.

(** No iteration: only the division before the loop is evaluated. *)
Lemma TradeoffCalculator_no_steps :
  ~ base_percentage c == 0 -> (steps c <= 0)%Z ->
  TradeoffCalculator c = Ok [].
Proof.
  intros Hb Hn.
  unfold TradeoffCalculator, compute_salary_equity_tradeoff.
  rewrite (py_truediv_ok _ _ Hb). simpl.
  now rewrite range_nonpos.
Qed.

Lemma TradeoffCalculator_raise_percentage :
  base_percentage c == 0 ->
  TradeoffCalculator c = Raise ZeroDivisionError.
Proof.
  intros Hb.
  unfold TradeoffCalculator, compute_salary_equity_tradeoff.
  now rewrite (py_truediv_raise _ _ Hb).
Qed.

Lemma TradeoffCalculator_raise_price :
  ~ base_percentage c == 0 -> (0 < steps c)%Z -> share_price c == 0 ->
  TradeoffCalculator c = Raise ZeroDivisionError.
Proof.
  intros Hb Hn Hp.
  unfold TradeoffCalculator, compute_salary_equity_tradeoff.
  rewrite (py_truediv_ok _ _ Hb). simpl.
  destruct (range_pos _ Hn) as [rest ->].
  apply for_range_raise. now apply loop_body_raise_price.
Qed.

Lemma TradeoffCalculator_raise_shares :
  ~ base_percentage c == 0 -> (0 < steps c)%Z -> ~ share_price c == 0 ->
  base_shares c = 0%Z ->
  TradeoffCalculator c = Raise ZeroDivisionError.
Proof.
  intros Hb Hn Hp Hs.
  unfold TradeoffCalculator, compute_salary_equity_tradeoff.
  rewrite (py_truediv_ok _ _ Hb). simpl.
  destruct (range_pos _ Hn) as [rest ->].
  apply for_range_raise. apply loop_body_raise_total; [ exact Hp | ].
  now apply total_shares_zero_iff.
Qed.

(** The five cases above are exhaustive. *)
Lemma TradeoffCalculator_outcome : outcome c (TradeoffCalculator c).
Proof.
  destruct (Qeq_dec (base_percentage c) 0) as [Hb | Hb].
  { rewrite TradeoffCalculator_raise_percentage by exact Hb.
    constructor. now left. }
  destruct (Z_lt_le_dec 0 (steps c)) as [Hn | Hn].
  2: { rewrite TradeoffCalculator_no_steps by assumption.
       replace (@nil Row) with (map (spec_row c) (range (steps c)))
         by now rewrite range_nonpos.
       constructor; [ exact Hb | now left ]. }
  destruct (Qeq_dec (share_price c) 0) as [Hp | Hp].
  { rewrite TradeoffCalculator_raise_price by assumption.
    constructor. right. split; [ exact Hn | now left ]. }
  destruct (Z.eq_dec (base_shares c) 0) as [Hs | Hs].
  { rewrite TradeoffCalculator_raise_shares by assumption.
    constructor. right. split; [ exact Hn | now right ]. }
  rewrite TradeoffCalculator_ok by assumption.
  constructor; [ exact Hb | right; now split ].
Qed.

Lemma TradeoffCalculator_Ok_inv (rows : list Row) :
  TradeoffCalculator c = Ok rows ->
  rows = map (spec_row c) (range (steps c)) /\
  ~ base_percentage c == 0 /\
  ((steps c <= 0)%Z \/ (~ share_price c == 0 /\ base_shares c <> 0%Z)).
Proof.
  intros H. pose proof TradeoffCalculator_outcome as O.
  rewrite H in O. inversion O; subst. now repeat split.
Qed.

End Calculator.

(** ** Rows of the returned table *)

Lemma spec_rows_length (c : Configuration) :
  length (map (spec_row c) (range (steps c))) = Z.to_nat (steps c).
Proof. now rewrite length_map, range_length. Qed.

Lemma spec_rows_nth_error (c : Configuration) (k : nat) :
  (k < Z.to_nat (steps c))%nat ->
  nth_error (map (spec_row c) (range (steps c))) k
  = Some (spec_row c (Z.of_nat k)).
Proof.
  intros H. now rewrite nth_error_map, range_nth_error.
Qed.

Lemma spec_rows_nth_error_inv (c : Configuration) (k : nat) (r : Row) :
  nth_error (map (spec_row c) (range (steps c))) k = Some r ->
  (k < Z.to_nat (steps c))%nat /\ r = spec_row c (Z.of_nat k).
Proof.
  intros H.
  assert (L : (k < Z.to_nat (steps c))%nat).
  { rewrite <- spec_rows_length. apply nth_error_Some. congruence. }
  rewrite spec_rows_nth_error in H by exact L.
  split; [ exact L | congruence ].
Qed.

Lemma spec_quotient_0 (c : Configuration) :
  ~ share_price c == 0 -> spec_quotient c 0 == inject_Z (base_shares c).
Proof.
  intros Hp. unfold spec_quotient. change (inject_Z 0) with 0.
  field. exact Hp.
Qed.

Lemma spec_quotient_no_increment (c : Configuration) (i : Z) :
  ~ share_price c == 0 -> salary_increment c == 0 ->
  spec_quotient c i == inject_Z (base_shares c).
Proof.
  intros Hp Hi. unfold spec_quotient. rewrite Hi. field. exact Hp.
Qed.

Lemma spec_row_0_is_base_row (c : Configuration) :
  ~ share_price c == 0 -> ~ base_percentage c == 0 ->
  base_shares c <> 0%Z ->
  is_base_row c (spec_row c 0).
Proof.
  intros Hp Hb Hs. unfold is_base_row, spec_row. simpl.
  rewrite (py_round_comp _ _ (spec_quotient_0 c Hp)), py_round_inject_Z.
  repeat split.
  - change (inject_Z 0) with 0. ring.
  - field. split; [ exact Hb | now apply inject_Z_nonzero ].
Qed.

Lemma spec_quotient_decreasing (c : Configuration) (i : Z) :
  0 < salary_increment c -> 0 < share_price c ->
  (0 <= vesting_years c)%Z ->
  spec_quotient c (i + 1) <= spec_quotient c i.
Proof.
  intros Hi Hp Hv. unfold spec_quotient.
  apply Qmult_le_compat_r; [ | apply Qlt_le_weak, Qinv_lt_0_compat, Hp ].
  rewrite inject_Z_plus. change (inject_Z 1) with 1.
  assert (Hv' : 0 <= inject_Z (vesting_years c)).
  { change 0 with (inject_Z 0). now rewrite <- Zle_Qle. }
  assert (H : 0 <= salary_increment c * 12 * inject_Z (vesting_years c)).
  { apply Qmult_le_0_compat; [ lra | exact Hv' ]. }
  lra.
Qed.

Lemma Q220_nonzero : ~ 220 == 0.
Proof. intros H. discriminate H. Qed.

Lemma Q08_nonzero : ~ (8 # 10) == 0.
Proof. intros H. discriminate H. Qed.

(** * The claims *)

(** ** C1: the rows follow the per-row formulas *)




(** ** C2: row 1 of the default scenario *)

(** Claim C2, as amended.  For the default configuration (share price 220)
    row 1 has Salary = 43000, N_qeso = round(643240 / 220) = 2924 and
    perc_qeso = 2924 / 3927.5, which is 0.7445 to four decimals (it lies
    strictly between 0.74449 and 0.74450); total_shares = 3142 / 0.8 =
    3927.5. *)
Theorem default_scenario_row_1 :
  exists r,
    row_at (TradeoffCalculator default_configuration) 1 = Some r /\
    Salary r == 43000 /\
    inject_Z 1 * 1000 * 12 * inject_Z 4 == 48000 /\
    inject_Z 3142 * 220 - 48000 == 643240 /\
    py_round (643240 / 220) = 2924%Z /\
    N_qeso r = 2924%Z /\
    inject_Z 3142 / (8 # 10) == 39275 # 10 /\
    perc_qeso r == 2924 / (39275 # 10) /\
    approx4 (perc_qeso r) (7445 # 10000) /\
    (74449 # 100000) < perc_qeso r /\ perc_qeso r < (74450 # 100000).
Proof.
  eexists. split; [ reflexivity | ].
  unfold approx4. simpl.
  repeat split; try reflexivity; try (intros H; discriminate H).
Qed.

(** Claim C2 as stated fails in its last figure: the value of perc_qeso in
    row 1, 2924 / 3927.5 = 0.744494..., is not 0.7446 to four decimals. *)
Lemma default_scenario_row_1_not_7446 :
  exists r,
    row_at (TradeoffCalculator default_configuration) 1 = Some r /\
    perc_qeso r == 2924 / (39275 # 10) /\
    ~ approx4 (perc_qeso r) (7446 # 10000).
Proof.
  eexists. split; [ reflexivity | ].
  split; [ reflexivity | ].
  unfold approx4. simpl. intros [H _]. apply H. reflexivity.
Qed.

(** ** C3: row 0 is the base case *)




(** ** C4: monotonicity along the rows *)




(** ** C5: the driver *)

(** Claim C5.  The driver runs exactly 8 scenarios, for the share prices
    180, 190, ..., 250 in ascending order; for each it prints the header
    line stating the price, calls the calculator once with that price put
    into the otherwise-default configuration, prints the returned table and
    a blank separator, in sweep order; no call raises. *)
Theorem driver_sweeps_eight_prices :
  let prices := [180; 190; 200; 210; 220; 230; 240; 250]%Z in
  arange 180 260 10 = prices /\
  length prices = 8%nat /\
  driver = (flat_map spec_scenario_events prices, None) /\
  calls (fst driver) = map scenario prices /\
  (forall p, In p prices ->
     scenario p =
       {| base_salary := 42000; base_shares := 3142;
          base_percentage := 8 # 10; share_price := inject_Z p;
          salary_increment := 1000; steps := 7; vesting_years := 4 |} /\
     TradeoffCalculator (scenario p)
     = Ok (map (spec_row (scenario p)) (range 7))) /\
  map header prices =
    [ "Share price: 180 SEK"; "Share price: 190 SEK";
      "Share price: 200 SEK"; "Share price: 210 SEK";
      "Share price: 220 SEK"; "Share price: 230 SEK";
      "Share price: 240 SEK"; "Share price: 250 SEK" ]%string.
Proof.
  intros prices.
  split; [ reflexivity | ].
  split; [ reflexivity | ].
  split; [ vm_compute; reflexivity | ].
  split; [ vm_compute; reflexivity | ].
  split; [ | reflexivity ].
  intros p Hp. split; [ reflexivity | ].
  simpl in Hp.
  repeat (destruct Hp as [<- | Hp]; [ vm_compute; reflexivity | ]).
  contradiction.
Qed.

(** ** C6: no division by zero *)





(** ** C7: boundary behaviour *)




(** ** C8: determinism *)

Lemma Forall2_map_pointwise {A B : Type} (R : B -> B -> Prop)
  (f g : A -> B) (l : list A) :
  (forall a, R (f a) (g a)) -> Forall2 R (map f l) (map g l).
Proof.
  intros H. induction l as [ | a l IH]; simpl; constructor; auto.
Qed.

Section SameValues.

Variables c1 c2 : Configuration.
Hypothesis Heq : Configuration_eq c1 c2.

Lemma spec_quotient_eq (i : Z) : spec_quotient c1 i == spec_quotient c2 i.
Proof.
  destruct Heq as (_ & Hs & _ & Hp & Hi & _ & Hv).
  unfold spec_quotient. now rewrite Hs, Hp, Hi, Hv.
Qed.

Lemma spec_row_eq (i : Z) : Row_eq (spec_row c1 i) (spec_row c2 i).
Proof.
  pose proof (spec_quotient_eq i) as Hq.
  destruct Heq as (Hb & Hs & Hc & _ & Hi & _ & _).
  unfold Row_eq, spec_row. simpl.
  rewrite (py_round_comp _ _ Hq).
  repeat split.
  - now rewrite Hb, Hi.
  - now rewrite Hs, Hc.
Qed.

Lemma divisors_eq :
  (base_percentage c1 == 0 <-> base_percentage c2 == 0) /\
  (share_price c1 == 0 <-> share_price c2 == 0) /\
  base_shares c1 = base_shares c2 /\
  steps c1 = steps c2.
Proof.
  destruct Heq as (_ & Hs & Hc & Hp & _ & Hn & _).
  repeat split; try assumption; intros H.
  - now rewrite <- Hc.
  - now rewrite Hc.
  - now rewrite <- Hp.
  - now rewrite Hp.
Qed.

End SameValues.



(** ** C9: the Salary column does not depend on the share price *)

(** Claim C9.  For every configuration and any two non-zero share prices
    [p1] and [p2], the calls with [p1] and with [p2] either both raise or
    both return a table, and then the two tables have the same Salary
    column: the Salary of row [i] is the same in both. *)
Theorem salary_independent_of_share_price (c : Configuration) (p1 p2 : Q) :
  ~ p1 == 0 -> ~ p2 == 0 ->
  salary_column (TradeoffCalculator (with_share_price c p1))
  = salary_column (TradeoffCalculator (with_share_price c p2)) /\
  forall rows1 rows2 i r1 r2,
    TradeoffCalculator (with_share_price c p1) = Ok rows1 ->
    TradeoffCalculator (with_share_price c p2) = Ok rows2 ->
    nth_error rows1 i = Some r1 -> nth_error rows2 i = Some r2 ->
    Salary r1 = Salary r2.
Proof.
  intros H1 H2.
  assert (E : salary_column (TradeoffCalculator (with_share_price c p1))
              = salary_column (TradeoffCalculator (with_share_price c p2))).
  { destruct (TradeoffCalculator_outcome (with_share_price c p1))
      as [Hb1 Hc1 | Hr1];
      destruct (TradeoffCalculator_outcome (with_share_price c p2))
        as [Hb2 Hc2 | Hr2];
      simpl in *; try reflexivity.
    - now rewrite !map_map.
    - exfalso.
      destruct Hr2 as [H | [H [H' | H']]]; [ contradiction | | ];
        destruct Hc1 as [Hc | [Hc Hc']]; try lia; contradiction.
    - exfalso.
      destruct Hr1 as [H | [H [H' | H']]]; [ contradiction | | ];
        destruct Hc2 as [Hc | [Hc Hc']]; try lia; contradiction. }
  split; [ exact E | ].
  intros rows1 rows2 i r1 r2 Hr1 Hr2 Hn1 Hn2.
  rewrite Hr1, Hr2 in E. simpl in E. injection E as E.
  apply (map_nth_error Salary) in Hn1, Hn2.
  rewrite E in Hn1. congruence.
Qed.

Lemma salary_independent_of_share_price_witness :
  ~ 180 == 0 /\ ~ 250 == 0 /\
  salary_column (TradeoffCalculator (with_share_price default_configuration 180))
  = salary_column
      (TradeoffCalculator (with_share_price default_configuration 250)).
Proof.
  assert (H1 : ~ 180 == 0) by (intros H; discriminate H).
  assert (H2 : ~ 250 == 0) by (intros H; discriminate H).
  split; [ exact H1 | ].
  split; [ exact H2 | ].
  exact (proj1 (salary_independent_of_share_price
                  default_configuration 180 250 H1 H2)).
Defined.

(** ** C10: ties go to the even neighbour *)

Lemma even_neighbour_even (k : Z) :
  Z.even (if Z.even k then k else (k + 1)%Z) = true.
Proof.
  destruct (Z.even k) eqn:E; [ exact E | ].
  rewrite Z.add_1_r, Z.even_succ, <- Z.negb_even. now rewrite E.
Qed.



(** * Further properties of the calculator and of the driver *)

(** ** Rounding error and rows that are present *)

Lemma py_round_error (x : Q) :
  x - (1 # 2) <= inject_Z (py_round x) /\
  inject_Z (py_round x) <= x + (1 # 2).
Proof.
  pose proof (Qfloor_le x) as Hl.
  pose proof (Qlt_floor x) as Hu.
  rewrite inject_Z_plus in Hu. change (inject_Z 1) with 1 in Hu.
  destruct (py_round_cases x) as [[H R] | [[H R] | [H R]]]; rewrite R.
  - split; lra.
  - rewrite inject_Z_plus. change (inject_Z 1) with 1. split; lra.
  - destruct (Z.even (Qfloor x)).
    + split; lra.
    + rewrite inject_Z_plus. change (inject_Z 1) with 1. split; lra.
Qed.

Lemma py_round_nonneg_iff (x : Q) :
  (0 <= py_round x)%Z <-> - (1 # 2) <= x.
Proof.
  split.
  - intros H. destruct (py_round_error x) as [_ Hu].
    rewrite Zle_Qle in H. change (inject_Z 0) with 0 in H. lra.
  - intros H. apply py_round_mono in H.
    change (py_round (- (1 # 2))) with 0%Z in H. exact H.
Qed.

Lemma spec_quotient_times_price (c : Configuration) (i : Z) :
  ~ share_price c == 0 ->
  spec_quotient c i * share_price c
  == inject_Z (base_shares c) * share_price c - extra_salary_total c i.
Proof.
  intros Hp. unfold spec_quotient, extra_salary_total. field. exact Hp.
Qed.

Lemma row_present (c : Configuration) (rows : list Row) (i : nat) (r : Row) :
  TradeoffCalculator c = Ok rows -> nth_error rows i = Some r ->
  r = spec_row c (Z.of_nat i) /\
  (Z.of_nat i < steps c)%Z /\
  ~ base_percentage c == 0 /\ ~ share_price c == 0 /\
  base_shares c <> 0%Z.
Proof.
  intros Hrows Hr.
  apply TradeoffCalculator_Ok_inv in Hrows as (-> & Hb & Hc).
  apply spec_rows_nth_error_inv in Hr as [Hi ->].
  destruct Hc as [Hn | [Hp Hs]]; [ lia | ].
  repeat split; try assumption. lia.
Qed.

(** ** Edge and error behaviour *)



(** ** What the rounded share count keeps *)





(** Property X5.  With a positive increment, share price, share count and
    percentage and a non-negative vesting period, perc_qeso does not
    increase from one row to the next. *)
Theorem percentage_non_increasing (c : Configuration) (rows : list Row)
  (i : nat) (r1 r2 : Row) :
  0 < salary_increment c -> 0 < share_price c ->
  (0 <= vesting_years c)%Z ->
  (0 < base_shares c)%Z -> 0 < base_percentage c ->
  TradeoffCalculator c = Ok rows ->
  nth_error rows i = Some r1 -> nth_error rows (S i) = Some r2 ->
  perc_qeso r2 <= perc_qeso r1.
Proof.
  intros Hi Hp Hv Hs Hb Hrows H1 H2.
  destruct (row_present c rows i r1 Hrows H1) as (-> & _).
  destruct (row_present c rows (S i) r2 Hrows H2) as (-> & _).
  rewrite Nat2Z.inj_succ, <- Z.add_1_r. simpl.
  apply Qmult_le_compat_r.
  - rewrite <- Zle_Qle. apply py_round_mono.
    now apply spec_quotient_decreasing.
  - apply Qlt_le_weak, Qinv_lt_0_compat.
    apply Qlt_shift_div_l; [ exact Hb | ].
    rewrite Qmult_0_l. change 0 with (inject_Z 0). now rewrite <- Zlt_Qlt.
Qed.

Lemma percentage_non_increasing_witness :
  0 < salary_increment default_configuration /\
  0 < share_price default_configuration /\
  (0 <= vesting_years default_configuration)%Z /\
  (0 < base_shares default_configuration)%Z /\
  0 < base_percentage default_configuration /\
  exists r1 r2,
    row_at (TradeoffCalculator default_configuration) 1 = Some r1 /\
    row_at (TradeoffCalculator default_configuration) 2 = Some r2 /\
    perc_qeso r2 <= perc_qeso r1.
Proof.
  assert (Hi : 0 < salary_increment default_configuration) by reflexivity.
  assert (Hp : 0 < share_price default_configuration) by reflexivity.
  assert (Hv : (0 <= vesting_years default_configuration)%Z)
    by (simpl; lia).
  assert (Hs : (0 < base_shares default_configuration)%Z) by (simpl; lia).
  assert (Hb : 0 < base_percentage default_configuration) by reflexivity.
  split; [ exact Hi | ]. split; [ exact Hp | ]. split; [ exact Hv | ].
  split; [ exact Hs | ]. split; [ exact Hb | ].
  eexists. eexists.
  split; [ reflexivity | ]. split; [ reflexivity | ].
  exact (percentage_non_increasing default_configuration _ 1 _ _
           Hi Hp Hv Hs Hb eq_refl eq_refl eq_refl).
Defined.



(** ** Independence of the number of steps *)

Lemma firstn_seq_le (k n start : nat) :
  (k <= n)%nat -> firstn k (seq start n) = seq start k.
Proof.
  revert n start. induction k as [ | k IH]; intros n start H.
  - reflexivity.
  - destruct n as [ | n]; [ lia | ].
    simpl. now rewrite IH by lia.
Qed.

Lemma range_prefix (m n : Z) :
  (m <= n)%Z -> range m = firstn (Z.to_nat m) (range n).
Proof.
  intros H. unfold range.
  now rewrite firstn_map, firstn_seq_le by lia.
Qed.

(** Property X7.  Asking for more steps only appends rows: the table for
    [steps] is the first [steps] rows of the table for any larger number of
    steps. *)
Theorem more_steps_extend_the_table (c : Configuration) (n : Z)
  (rows rows' : list Row) :
  (steps c <= n)%Z ->
  TradeoffCalculator c = Ok rows ->
  TradeoffCalculator (with_steps c n) = Ok rows' ->
  rows = firstn (Z.to_nat (steps c)) rows'.
Proof.
  intros Hn Hrows Hrows'.
  apply TradeoffCalculator_Ok_inv in Hrows as [-> _].
  apply TradeoffCalculator_Ok_inv in Hrows' as [-> _].
  simpl. rewrite (range_prefix _ _ Hn), firstn_map. reflexivity.
Qed.

Lemma more_steps_extend_the_table_witness :
  (steps default_configuration <= 9)%Z /\
  exists rows rows',
    TradeoffCalculator default_configuration = Ok rows /\
    TradeoffCalculator (with_steps default_configuration 9) = Ok rows' /\
    length rows' = 9%nat /\
    rows = firstn 7 rows'.
Proof.
  assert (Hn : (steps default_configuration <= 9)%Z) by (simpl; lia).
  split; [ exact Hn | ].
  eexists. eexists.
  split; [ reflexivity | ]. split; [ reflexivity | ].
  split; [ reflexivity | ].
  exact (more_steps_extend_the_table default_configuration 9 _ _
           Hn eq_refl eq_refl).
Defined.

(** ** The driver loop in general *)

Lemma scenario_table (p : Z) :
  p <> 0%Z ->
  TradeoffCalculator (scenario p)
  = Ok (map (spec_row (scenario p)) (range (steps (scenario p)))).
Proof.
  intros Hp. apply TradeoffCalculator_ok.
  - now apply inject_Z_nonzero.
  - exact Q08_nonzero.
  - simpl. lia.
Qed.



(** ** Change of currency unit *)

Section Currency.

Variables (k : Q) (c : Configuration).
Hypothesis Hk : ~ k == 0.

Lemma scale_currency_quotient (i : Z) :
  ~ share_price c == 0 ->
  spec_quotient (scale_currency k c) i == spec_quotient c i.
Proof.
  intros Hp. unfold spec_quotient. simpl. field. split; assumption.
Qed.

Lemma scale_currency_price_zero :
  k * share_price c == 0 <-> share_price c == 0.
Proof.
  split; intros H.
  - apply Qmult_integral in H as [H | H]; [ contradiction | exact H ].
  - rewrite H. ring.
Qed.

Lemma scale_currency_row (i : Z) :
  ~ share_price c == 0 ->
  same_up_to_currency k (spec_row c i) (spec_row (scale_currency k c) i).
Proof.
  intros Hp. unfold same_up_to_currency, spec_row. simpl.
  rewrite (py_round_comp _ _ (scale_currency_quotient i Hp)).
  split; [ ring | split; reflexivity ].
Qed.

End Currency.


